(** * enpassreadercli: a shallow embedding of [enpassreadercli.py]

    The script parses its command line, configures logging, opens an Enpass
    database through [enpassreaderlib] and serves one of four retrieval
    modes.  Everything the script does not own (the process environment, the
    file system, [json], [logging], [enpassreaderlib], [prompt_toolkit]) is
    collected in a [World] of oracles; the script itself is translated
    statement by statement into a small trace-and-exception monad. *)

From Stdlib Require Import ZArith.
From stdpp Require Import base strings list gmap.

Open Scope Z_scope.
Open Scope string_scope.
Open Scope list_scope.

(** ** Python values, exceptions and control flow *)

Module Py.

(** The exceptions that can travel through the script.  [SystemExit] is an
    exception like the others: [raise SystemExit(n)] unwinds until the
    interpreter ends the process with status [n]. *)
Inductive exn : Type :=
| SystemExit (code : Z)
| KeyboardInterrupt
| EOFError
| ValueError
| JSONDecodeError            (* json.JSONDecodeError, a ValueError *)
| UnicodeDecodeError         (* a ValueError *)
| OSError
| FileNotFoundError          (* an OSError *)
| UnboundLocalError (name : string)
| EnpassDatabaseError
| OtherError (name : string).

(** [except ValueError] also catches the subclasses of [ValueError]. *)
Definition isinstance_ValueError (e : exn) : bool :=
  match e with
  | ValueError | JSONDecodeError | UnicodeDecodeError => true
  | _ => false
  end.

Definition isinstance_EnpassDatabaseError (e : exn) : bool :=
  match e with EnpassDatabaseError => true | _ => false end.

Definition isinstance_KeyboardInterrupt (e : exn) : bool :=
  match e with KeyboardInterrupt => true | _ => false end.

(** Truth value of a [str] and of a [str]-or-[None]. *)
Definition truthy (s : string) : bool :=
  match s with EmptyString => false | String _ _ => true end.

Definition truthy_opt (o : option string) : bool :=
  match o with None => false | Some s => truthy s end.

(** [str.upper] on ASCII text. *)
Definition upper_ascii (c : Ascii.ascii) : Ascii.ascii :=
  let n := Ascii.N_of_ascii c in
  if ((97 <=? n) && (n <=? 122))%N then Ascii.ascii_of_N (n - 32) else c.

Fixpoint upper (s : string) : string :=
  match s with
  | EmptyString => EmptyString
  | String c s' => String (upper_ascii c) (upper s')
  end.

(** The double quote character, for the messages that quote a value. *)
Definition dquote : string := String (Ascii.ascii_of_N 34) EmptyString.

End Py.
Export Py.

(** ** The external collaborators *)

(** An entry of the database, as [enpassreaderlib] hands it out. *)
Record Entry : Type := { title : string; password : string }.

(** What the script uses of an opened [EnpassDB] object. *)
Record Database : Type := {
  entries : list Entry;
  search_entries : string -> list Entry;
  get_entry : string -> option Entry
}.

(** A parsed JSON document ([json.loads] result). *)
#[warnings="-register-all"]
Inductive json : Type :=
| JNull
| JBool (b : bool)
| JNumber (z : Z)
| JString (s : string)
| JArray (items : list json)
| JObject (members : list (string * json)).


Inductive Completer : Type :=
| EnpassCompleter (enpass : Database)
| FuzzyCompleter (inner : Completer).


Definition is_fuzzy (c : Completer) : bool :=
  match c with FuzzyCompleter _ => true | EnpassCompleter _ => false end.

(** Everything outside the script.  An oracle that can raise returns
    [inl e]. *)
Record World : Type := {
  os_environ : gmap string string;
  (* open(path) followed by .read() *)
  open_read : string -> exn + string;
  json_loads : string -> exn + json;
  (* logging.config.dictConfig: None when the configuration is accepted *)
  dictConfig : json -> option exn;
  (* EnpassDB(path, password, key_file) *)
  EnpassDB : option string -> option string -> option string -> exn + Database;
  (* prompt(message, completer=...): what the user types, or what interrupts *)
  prompt : string -> Completer -> exn + string
}.

(** ** Observable effects and the monad of the script *)

(** Why [ArgumentParser.error] ended the run (usage on stderr, status 2). *)
Inductive parser_error : Type :=
| InvalidChoice (flags value : string)
| NotAllowedWith
| ArgumentsRequired (flags : list string)
| OneOfRequired.

Inductive event : Type :=
| Print (line : string)                       (* print(...) to stdout *)
| LogError (message : string)                 (* LOGGER.error(...) *)
| OpenRead (path : string)                    (* open(path).read() *)
| DictConfig (configuration : json)           (* logging.config.dictConfig *)
| ColoredlogsInstall (level : string)         (* coloredlogs.install *)
| OpenDatabase (path pass key_file : option string)
| ReadEntries                                 (* enpass.entries *)
| Prompt (message : string) (fuzzy : bool)    (* prompt(...) *)
| GetEntry (entry_title : string)             (* enpass.get_entry(...) *)
| ParserError (reason : parser_error).        (* ArgumentParser.error *)

(** A computation yields the events it performed and either a value or the
    exception that ended it. *)
Definition M (A : Type) : Type := list event * (exn + A).

Definition ret {A} (x : A) : M A := ([], inr x).

Definition raise {A} (e : exn) : M A := ([], inl e).

Definition bind {A B} (c : M A) (k : A -> M B) : M B :=
  match c with
  | (tr, inl e) => (tr, inl e)
  | (tr, inr x) => let '(tr', r) := k x in (tr ++ tr', r)
  end.

(** [try: c except E: h], where [catches] decides [isinstance(e, E)]. *)
Definition try_except {A} (c : M A) (catches : exn -> bool) (h : M A) : M A :=
  match c with
  | (tr, inl e) =>
      if catches e then let '(tr', r) := h in (tr ++ tr', r) else (tr, inl e)
  | (tr, inr x) => (tr, inr x)
  end.

(** Performs [ev]; the collaborator answers [r]. *)
Definition call {A} (ev : event) (r : exn + A) : M A := ([ev], r).

Definition emit (ev : event) : M unit := ([ev], inr tt).

Declare Scope py_scope.
Delimit Scope py_scope with py.
Notation "x <- c ;; k" := (bind c (fun x => k))
  (at level 100, c at next level, right associativity) : py_scope.
Notation "c ;;; k" := (bind c (fun _ => k))
  (at level 100, right associativity) : py_scope.
Open Scope py_scope.

(** [for x in l: body x] *)
Fixpoint for_each {A} (l : list A) (body : A -> M unit) : M unit :=
  match l with
  | [] => ret tt
  | x :: l' => body x ;;; for_each l' body
  end.

(** Reading a local variable: unbound locals raise [UnboundLocalError]. *)
Definition read_local (name : string) (v : option string) : M string :=
  match v with
  | Some s => ret s
  | None => raise (UnboundLocalError name)
  end.

Definition trace {A} (c : M A) : list event := fst c.
Definition result {A} (c : M A) : exn + A := snd c.

(** What was written to standard output, and what was logged as an error. *)
Definition stdout (tr : list event) : list string :=
  omap (fun ev => match ev with Print s => Some s | _ => None end) tr.

Definition error_log (tr : list event) : list string :=
  omap (fun ev => match ev with LogError s => Some s | _ => None end) tr.

Definition is_db_event (ev : event) : bool :=
  match ev with
  | OpenDatabase _ _ _ | ReadEntries | Prompt _ _ | GetEntry _ => true
  | _ => false
  end.

Definition is_retrieval_event (ev : event) : bool :=
  match ev with
  | ReadEntries | Prompt _ _ | GetEntry _ | Print _ => true
  | _ => false
  end.

(** ** The parsed arguments *)

(** The namespace [get_arguments] returns; [None] is Python's [None]. *)
Record Namespace : Type := {
  args_logger_config : string;
  args_log_level : string;
  args_path : option string;
  args_password : option string;
  args_key_file : option string;
  args_entry : option string;
  args_list : bool;
  args_search : bool;
  args_fuzzy : bool
}.

(** ** [setup_logging] *)

Definition not_valid_json_message (config_file : string) : string :=
  "File " +:+ dquote +:+ config_file +:+ dquote
  +:+ " is not valid json, cannot continue.".

Definition setup_logging (w : World) (level : string) (config_file : string)
  : M unit :=
  if truthy config_file then
    try_except
      (contents <- call (OpenRead config_file) (open_read w config_file) ;;
       configuration <- (([], json_loads w contents) : M json) ;;
       call (DictConfig configuration)
            (match dictConfig w configuration with
             | None => inr tt
             | Some e => inl e
             end))
      isinstance_ValueError
      (emit (Print (not_valid_json_message config_file)) ;;;
       raise (SystemExit 1))
  else
    emit (ColoredlogsInstall (upper level)).

(** ** [main], after the arguments are parsed *)

Definition open_failure_message : string :=
  "Could not read or decrypt the database. "
  +:+ "Please validate that the path provided is a valid enpass database, "
  +:+ "and that the provided password and optionally key file are correct.".

Definition not_found_message (entry_title : string) : string :=
  "No password entry found with title of " +:+ dquote +:+ entry_title
  +:+ dquote +:+ ".".

Definition entry_line (entry : Entry) : string :=
  title entry +:+ ": " +:+ password entry.

(** Lines 189-202: the [try] block that builds the [EnpassDB] object (and
    declares the completer class, which has no effect of its own). *)
Definition open_database (w : World) (args : Namespace) : M Database :=
  try_except
    (call (OpenDatabase (args_path args) (args_password args)
                        (args_key_file args))
          (EnpassDB w (args_path args) (args_password args)
                    (args_key_file args)))
    isinstance_EnpassDatabaseError
    (emit (LogError open_failure_message) ;;;
     raise (SystemExit 1)).

(** Lines 203-220: the retrieval modes.  [entry_title] is a local variable
    that is bound on some paths only. *)
Definition retrieve (w : World) (args : Namespace) (enpass : Database)
  : M unit :=
  (if args_list args then
     all_entries <- call ReadEntries (inr (entries enpass)) ;;
     for_each all_entries
       (fun entry => emit (Print (entry_line entry)) ;;; raise (SystemExit 0))
   else ret tt) ;;;
  entry_title <-
    (if truthy_opt (args_entry args) then ret (args_entry args)
     else if args_search args || args_fuzzy args then
       try_except
         (typed <- call (Prompt "Title :" (negb (args_search args)))
                        (prompt w "Title :"
                           (if args_search args then EnpassCompleter enpass
                            else FuzzyCompleter (EnpassCompleter enpass))) ;;
          ret (Some typed))
         isinstance_KeyboardInterrupt
         (raise (SystemExit 0))
     else ret None) ;;
  looked_up <- read_local "entry_title" entry_title ;;
  entry <- call (GetEntry looked_up) (inr (get_entry enpass looked_up)) ;;
  match entry with
  | None =>
      emit (LogError (not_found_message looked_up)) ;;; raise (SystemExit 1)
  | Some found =>
      emit (Print (password found)) ;;; raise (SystemExit 0)
  end.

(** The body of [main] once the arguments are parsed (lines 188-220). *)
Definition run (w : World) (args : Namespace) : M unit :=
  setup_logging w (args_log_level args) (args_logger_config args) ;;;
  enpass <- open_database w args ;;
  retrieve w args enpass.

(** ** The command line: [DefaultVariable] and [get_arguments]

    [argparse] belongs to Python's standard library; the script declares its
    options and one custom action.  The command line is taken after
    tokenisation: for every declared option, the value it was given when it
    occurs ([None] when it does not), or whether a switch occurs. *)

Record CommandLine : Type := {
  cl_log_config : option string;          (* --log-config / -l VALUE *)
  cl_log_level : option string;           (* --log-level / -L VALUE *)
  cl_database_path : option string;       (* --database-path / -d VALUE *)
  cl_database_password : option string;   (* --database-password / -p VALUE *)
  cl_database_key_file : option string;   (* --database-key-file / -k VALUE *)
  cl_get : option string;                 (* --get / -g TITLE *)
  cl_enumerate : bool;                    (* --enumerate / -e *)
  cl_search : bool;                       (* --search / -s *)
  cl_fuzzy_search : bool                  (* --fuzzy-search / -f *)
}.

(** What [argparse.Action.__init__] keeps of an option, as far as the script
    is concerned. *)
Record Action : Type := {
  action_dest : string;
  action_required : bool;
  action_default : option string
}.

(** [DefaultVariable.__init__(variable, required=True, default=None, **kwargs)] *)
Definition DefaultVariable (environ : gmap string string) (variable : string)
    (required : bool) (default : option string) (dest : string) : Action :=
  let default :=
    if negb (truthy_opt default) && truthy variable then
      match environ !! variable with
      | Some value => Some value
      | None => default
      end
    else default in
  let required := if required && truthy_opt default then false else required in
  {| action_dest := dest; action_required := required;
     action_default := default |}.

(** [DefaultVariable.__call__] stores the value it is given under [dest];
    [setattr] on the record of parsed arguments, by attribute name. *)
Definition setattr (namespace : Namespace) (name : string)
    (values : option string) : Namespace :=
  if String.eqb name "path" then
    {| args_logger_config := args_logger_config namespace;
       args_log_level := args_log_level namespace;
       args_path := values;
       args_password := args_password namespace;
       args_key_file := args_key_file namespace;
       args_entry := args_entry namespace;
       args_list := args_list namespace;
       args_search := args_search namespace;
       args_fuzzy := args_fuzzy namespace |}
  else if String.eqb name "password" then
    {| args_logger_config := args_logger_config namespace;
       args_log_level := args_log_level namespace;
       args_path := args_path namespace;
       args_password := values;
       args_key_file := args_key_file namespace;
       args_entry := args_entry namespace;
       args_list := args_list namespace;
       args_search := args_search namespace;
       args_fuzzy := args_fuzzy namespace |}
  else if String.eqb name "key_file" then
    {| args_logger_config := args_logger_config namespace;
       args_log_level := args_log_level namespace;
       args_path := args_path namespace;
       args_password := args_password namespace;
       args_key_file := values;
       args_entry := args_entry namespace;
       args_list := args_list namespace;
       args_search := args_search namespace;
       args_fuzzy := args_fuzzy namespace |}
  else namespace.

Definition DefaultVariable_call (self : Action) (namespace : Namespace)
    (values : string) : Namespace :=
  setattr namespace (action_dest self) (Some values).

(** The three options declared with [action=DefaultVariable]. *)
Inductive DbOption : Type := DatabasePath | DatabasePassword | DatabaseKeyFile.

Definition variable_of (o : DbOption) : string :=
  match o with
  | DatabasePath => "ENPASS_DB_PATH"
  | DatabasePassword => "ENPASS_DB_PASSWORD"
  | DatabaseKeyFile => "ENPASS_DB_KEY_FILE"
  end.

(** [required=] as written in the [add_argument] call. *)
Definition declared_required (o : DbOption) : bool :=
  match o with
  | DatabasePath | DatabasePassword => true
  | DatabaseKeyFile => false
  end.

(** [default=] as written in the [add_argument] call. *)
Definition declared_default (o : DbOption) : option string :=
  match o with
  | DatabasePath | DatabasePassword => None
  | DatabaseKeyFile => Some ""
  end.

Definition dest_of (o : DbOption) : string :=
  match o with
  | DatabasePath => "path"
  | DatabasePassword => "password"
  | DatabaseKeyFile => "key_file"
  end.

Definition flags_of (o : DbOption) : string :=
  match o with
  | DatabasePath => "-d/--database-path"
  | DatabasePassword => "-p/--database-password"
  | DatabaseKeyFile => "-k/--database-key-file"
  end.

(** The action object [add_argument] builds for the option. *)
Definition action_of (environ : gmap string string) (o : DbOption) : Action :=
  DefaultVariable environ (variable_of o) (declared_required o)
                  (declared_default o) (dest_of o).

Definition given (cl : CommandLine) (o : DbOption) : option string :=
  match o with
  | DatabasePath => cl_database_path cl
  | DatabasePassword => cl_database_password cl
  | DatabaseKeyFile => cl_database_key_file cl
  end.

Definition value_of (args : Namespace) (o : DbOption) : option string :=
  match o with
  | DatabasePath => args_path args
  | DatabasePassword => args_password args
  | DatabaseKeyFile => args_key_file args
  end.

Definition log_level_choices : list string :=
  ["debug"; "info"; "warning"; "error"; "critical"].

Definition mem_string (s : string) (l : list string) : bool :=
  existsb (String.eqb s) l.

Definition occurs (o : option string) : bool :=
  match o with Some _ => true | None => false end.

(** How many options of the mutually exclusive group occur. *)
Definition group_occurrences (cl : CommandLine) : nat :=
  ((if occurs (cl_get cl) then 1 else 0) + (if cl_enumerate cl then 1 else 0)
   + (if cl_search cl then 1 else 0) + (if cl_fuzzy_search cl then 1 else 0))%nat.

(** One option under [parse_args]: the namespace starts with the action's
    default; an occurrence calls the action; a required action that does not
    occur is reported. *)
Definition parse_db_option (environ : gmap string string) (cl : CommandLine)
    (o : DbOption) (namespace : Namespace) : Namespace :=
  let action := action_of environ o in
  let namespace := setattr namespace (action_dest action) (action_default action) in
  match given cl o with
  | Some values => DefaultVariable_call action namespace values
  | None => namespace
  end.

Definition missing_required (environ : gmap string string) (cl : CommandLine)
  : list string :=
  omap (fun o => if action_required (action_of environ o)
                 then match given cl o with
                      | None => Some (flags_of o)
                      | Some _ => None
                      end
                 else None)
       [DatabasePath; DatabasePassword; DatabaseKeyFile].

Definition parser_fail {A} (reason : parser_error) : M A :=
  emit (ParserError reason) ;;; raise (SystemExit 2).

(** [get_arguments]: the parser the script declares, run on the command
    line.  Every complaint of the parser ends the run with status 2. *)
Definition get_arguments (w : World) (cl : CommandLine) : M Namespace :=
  let environ := os_environ w in
  log_level <-
    match cl_log_level cl with
    | None => ret "info"
    | Some level =>
        if mem_string level log_level_choices then ret level
        else parser_fail (InvalidChoice "-L/--log-level" level)
    end ;;
  (if (1 <? group_occurrences cl)%nat then parser_fail NotAllowedWith
   else ret tt) ;;;
  (match missing_required environ cl with
   | [] => ret tt
   | flag :: flags => parser_fail (ArgumentsRequired (flag :: flags))
   end) ;;;
  (if (group_occurrences cl =? 0)%nat then parser_fail OneOfRequired
   else ret tt) ;;;
  let namespace :=
    {| args_logger_config := from_option id "" (cl_log_config cl);
       args_log_level := log_level;
       args_path := None;
       args_password := None;
       args_key_file := None;
       args_entry := cl_get cl;
       args_list := cl_enumerate cl;
       args_search := cl_search cl;
       args_fuzzy := cl_fuzzy_search cl |} in
  ret (parse_db_option environ cl DatabaseKeyFile
         (parse_db_option environ cl DatabasePassword
            (parse_db_option environ cl DatabasePath namespace))).

(** [main] *)
Definition main (w : World) (cl : CommandLine) : M unit :=
  args <- get_arguments w cl ;;
  run w args.

(** ** Sample worlds, for running the model *)

Module Samples.

Definition github : Entry := {| title := "github"; password := "hunter2" |}.
Definition mail : Entry := {| title := "mail"; password := "s3cret" |}.

(** Is [needle] a substring of [s]? *)
Fixpoint contains (needle s : string) : bool :=
  String.prefix needle s
  || match s with
     | EmptyString => false
     | String _ s' => contains needle s'
     end.

(** A database over a list of entries: lookup by exact title, search by
    substring. *)
Definition database_of (l : list Entry) : Database :=
  {| entries := l;
     search_entries := fun name => filter (fun e => contains name (title e)) l;
     get_entry := fun name => find (fun e => String.eqb (title e) name) l |}.

Definition two_entries : Database := database_of [github; mail].
Definition no_entries : Database := database_of [].

(** A database that also holds an entry saved without a title. *)
Definition untitled : Entry := {| title := ""; password := "0000" |}.
Definition with_untitled : Database := database_of [github; untitled].

(** A world with one database at [vault] (password [pw], no key file), a
    logging configuration at [logging.json], a broken one at [broken.json],
    and no other file. *)
Definition world (db : Database) (typed : exn + string) : World :=
  {| os_environ := {[ "ENPASS_DB_PATH" := "vault"; "ENPASS_DB_PASSWORD" := "pw" ]};
     open_read := fun path =>
       if String.eqb path "logging.json" then inr "{}"
       else if String.eqb path "broken.json" then inr "{"
       else inl FileNotFoundError;
     json_loads := fun s =>
       if String.eqb s "{}" then inr (JObject []) else inl JSONDecodeError;
     dictConfig := fun _ => None;
     EnpassDB := fun path pass key_file =>
       match path, pass with
       | Some "vault", Some "pw" => inr db
       | _, _ => inl EnpassDatabaseError
       end;
     prompt := fun _ _ => typed |}.

Definition args (config : string) (entry : option string)
    (list search fuzzy : bool) : Namespace :=
  {| args_logger_config := config;
     args_log_level := "info";
     args_path := Some "vault";
     args_password := Some "pw";
     args_key_file := Some "";
     args_entry := entry;
     args_list := list;
     args_search := search;
     args_fuzzy := fuzzy |}.

Definition bad_password (a : Namespace) : Namespace :=
  setattr a "password" (Some "wrong").

Definition command_line (get : option string) (enumerate search fuzzy : bool)
  : CommandLine :=
  {| cl_log_config := None;
     cl_log_level := None;
     cl_database_path := None;
     cl_database_password := None;
     cl_database_key_file := None;
     cl_get := get;
     cl_enumerate := enumerate;
     cl_search := search;
     cl_fuzzy_search := fuzzy |}.

End Samples.

(** More sample worlds: collaborators that fail in other ways. *)

Module MoreSamples.

(** A world without environment variables.  [logging.json] holds well-formed
    JSON that [dictConfig] refuses with a [ValueError]; the database at
    [vault] opens with any password, any other path cannot be read from
    disk ([OSError]). *)
Definition picky_world (db : Database) (typed : exn + string) : World :=
  {| os_environ := ∅;
     open_read := fun path =>
       if String.eqb path "logging.json" then inr "{}"
       else inl FileNotFoundError;
     json_loads := fun s =>
       if String.eqb s "{}" then inr (JObject []) else inl JSONDecodeError;
     dictConfig := fun _ => Some ValueError;
     EnpassDB := fun path pass key_file =>
       match path with
       | Some "vault" => inr db
       | _ => inl OSError
       end;
     prompt := fun _ _ => typed |}.

(** A command line that names the database itself. *)
Definition explicit (config : option string) (path : string)
    (get : option string) (enumerate search fuzzy : bool) : CommandLine :=
  {| cl_log_config := config;
     cl_log_level := None;
     cl_database_path := Some path;
     cl_database_password := Some "pw";
     cl_database_key_file := None;
     cl_get := get;
     cl_enumerate := enumerate;
     cl_search := search;
     cl_fuzzy_search := fuzzy |}.

Definition explicit_args (config path : string) (entry : option string)
    (list search fuzzy : bool) : Namespace :=
  {| args_logger_config := config;
     args_log_level := "info";
     args_path := Some path;
     args_password := Some "pw";
     args_key_file := Some "";
     args_entry := entry;
     args_list := list;
     args_search := search;
     args_fuzzy := fuzzy |}.

End MoreSamples.

(** ** Auxiliary definitions for the statements *)

(** The level is one the parser accepts: absent, or one of the choices. *)
Definition level_accepted (cl : CommandLine) : Prop :=
  match cl_log_level cl with
  | None => True
  | Some level => mem_string level log_level_choices = true
  end.

(** The option is given on the command line, or its environment variable
    holds a non-empty value. *)
Definition supplied (environ : gmap string string) (cl : CommandLine)
    (o : DbOption) : Prop :=
  is_Some (given cl o) \/
  exists value, environ !! variable_of o = Some value /\ truthy value = true.

(** The events of the retrieval modes. *)
Definition is_mode_event (ev : event) : bool :=
  match ev with
  | ReadEntries | Prompt _ _ | GetEntry _ | Print _ | LogError _ => true
  | _ => false
  end.

(** The events of [setup_logging], whatever its outcome. *)
Definition is_setup_event (ev : event) : bool :=
  match ev with
  | OpenRead _ | DictConfig _ | ColoredlogsInstall _ | Print _ => true
  | _ => false
  end.

(** The events [setup_logging] performs when it returns. *)
Definition is_logging_event (ev : event) : bool :=
  match ev with
  | OpenRead _ | DictConfig _ | ColoredlogsInstall _ => true
  | _ => false
  end.

(** The namespace with another [log_level]. *)
Definition with_log_level (level : string) (args : Namespace) : Namespace :=
  {| args_logger_config := args_logger_config args;
     args_log_level := level;
     args_path := args_path args;
     args_password := args_password args;
     args_key_file := args_key_file args;
     args_entry := args_entry args;
     args_list := args_list args;
     args_search := args_search args;
     args_fuzzy := args_fuzzy args |}.

(** The title is bound and looked up: the last two statements of [main]. *)
Definition lookup_and_print (enpass : Database) (entry_title : string) : M unit :=
  entry <- call (GetEntry entry_title) (inr (get_entry enpass entry_title)) ;;
  match entry with
  | None =>
      emit (LogError (not_found_message entry_title)) ;;; raise (SystemExit 1)
  | Some found =>
      emit (Print (password found)) ;;; raise (SystemExit 0)
  end.

(** Case analysis on which options of the mode group occur. *)
Ltac group_cases cl :=
  unfold group_occurrences;
  destruct (cl_get cl), (cl_enumerate cl), (cl_search cl), (cl_fuzzy_search cl);
  simpl; intros; try discriminate; intuition congruence.

(** * Properties *)

(** ** The monad *)

Section Monad.

Context {A B : Type}.

Lemma eta (c : M A) : c = (trace c, result c).
Proof. by destruct c. Qed.

Lemma bind_returns (c : M A) (k : A -> M B) (x : A) :
  result c = inr x ->
  bind c k = (trace c ++ trace (k x), result (k x)).
Proof.
  destruct c as [tr r]; simpl; intros ->.
  unfold bind. by destruct (k x).
Qed.

Lemma bind_raises (c : M A) (k : A -> M B) (e : exn) :
  result c = inl e -> bind c k = (trace c, inl e).
Proof. destruct c as [tr r]; simpl; by intros ->. Qed.

Lemma bind_ret (x : A) (k : A -> M B) : bind (ret x) k = k x.
Proof. unfold bind, ret. by destruct (k x). Qed.

End Monad.

Lemma stdout_app (tr tr' : list event) :
  stdout (tr ++ tr') = stdout tr ++ stdout tr'.
Proof. apply omap_app. Qed.

Lemma error_log_app (tr tr' : list event) :
  error_log (tr ++ tr') = error_log tr ++ error_log tr'.
Proof. apply omap_app. Qed.

(** A loop whose body always raises performs at most its first round. *)
Lemma for_each_raising {A} (body : A -> M unit) (x : A) (l : list A) (e : exn) :
  result (body x) = inl e ->
  for_each (x :: l) body = (trace (body x), inl e).
Proof. intros H. simpl. by apply bind_raises. Qed.

(** ** [setup_logging] *)

(** When [setup_logging] returns, it has printed nothing, logged no error and
    touched no database. *)
Lemma setup_logging_returns (w : World) (level config_file : string) :
  result (setup_logging w level config_file) = inr tt ->
  forallb is_logging_event (trace (setup_logging w level config_file)) = true.
Proof.
  unfold setup_logging.
  destruct (truthy config_file); [|done].
  destruct (open_read w config_file) as [e|contents]; simpl.
  { destruct (isinstance_ValueError e); simpl; discriminate. }
  destruct (json_loads w contents) as [e|configuration]; simpl.
  { destruct (isinstance_ValueError e); simpl; discriminate. }
  destruct (dictConfig w configuration) as [e|]; simpl; [|done].
  destruct (isinstance_ValueError e); simpl; discriminate.
Qed.

Lemma logging_events_silent (tr : list event) :
  forallb is_logging_event tr = true ->
  stdout tr = [] /\ error_log tr = [] /\
  forallb (fun ev => negb (is_db_event ev)) tr = true /\
  forallb (fun ev => negb (is_retrieval_event ev)) tr = true.
Proof.
  induction tr as [|ev tr IH]; [done|].
  simpl. intros [Hev Htr]%andb_true_iff.
  destruct (IH Htr) as (H1 & H2 & H3 & H4).
  destruct ev; try discriminate; simpl; by rewrite ?H1, ?H2, ?H3, ?H4.
Qed.

(** ** [get_arguments] *)

(** Exactly one option of the group occurs: the four cases. *)
Lemma group_one (cl : CommandLine) :
  group_occurrences cl = 1%nat ->
  (occurs (cl_get cl) = true /\ cl_enumerate cl = false /\
   cl_search cl = false /\ cl_fuzzy_search cl = false) \/
  (cl_get cl = None /\ cl_enumerate cl = true /\
   cl_search cl = false /\ cl_fuzzy_search cl = false) \/
  (cl_get cl = None /\ cl_enumerate cl = false /\
   cl_search cl = true /\ cl_fuzzy_search cl = false) \/
  (cl_get cl = None /\ cl_enumerate cl = false /\
   cl_search cl = false /\ cl_fuzzy_search cl = true).
Proof.
  unfold group_occurrences.
  destruct (cl_get cl), (cl_enumerate cl), (cl_search cl), (cl_fuzzy_search cl);
    simpl; intros; try discriminate; tauto.
Qed.

Lemma enumerate_alone (cl : CommandLine) :
  group_occurrences cl = 1%nat -> cl_enumerate cl = true ->
  cl_get cl = None /\ cl_search cl = false /\ cl_fuzzy_search cl = false.
Proof. group_cases cl. Qed.

Lemma get_alone (cl : CommandLine) (entry_title : string) :
  group_occurrences cl = 1%nat -> cl_get cl = Some entry_title ->
  cl_enumerate cl = false /\ cl_search cl = false /\ cl_fuzzy_search cl = false.
Proof. group_cases cl. Qed.

Lemma prompt_alone (cl : CommandLine) :
  group_occurrences cl = 1%nat ->
  cl_search cl = true \/ cl_fuzzy_search cl = true ->
  cl_get cl = None /\ cl_enumerate cl = false.
Proof. group_cases cl. Qed.

Lemma setattr_other (o o' : DbOption) (ns : Namespace) (v : option string) :
  o <> o' -> value_of (setattr ns (dest_of o) v) o' = value_of ns o'.
Proof. by destruct o, o'. Qed.

Lemma setattr_same (o : DbOption) (ns : Namespace) (v : option string) :
  value_of (setattr ns (dest_of o) v) o = v.
Proof. by destruct o. Qed.

Lemma parse_db_option_same (environ : gmap string string) (cl : CommandLine)
    (o : DbOption) (ns : Namespace) :
  value_of (parse_db_option environ cl o ns) o =
  match given cl o with
  | Some values => Some values
  | None => action_default (action_of environ o)
  end.
Proof.
  unfold parse_db_option, DefaultVariable_call.
  replace (action_dest (action_of environ o)) with (dest_of o) by done.
  destruct (given cl o); by rewrite !setattr_same.
Qed.

Lemma parse_db_option_other (environ : gmap string string) (cl : CommandLine)
    (o o' : DbOption) (ns : Namespace) :
  o <> o' ->
  value_of (parse_db_option environ cl o ns) o' = value_of ns o'.
Proof.
  intros Hne. unfold parse_db_option, DefaultVariable_call.
  replace (action_dest (action_of environ o)) with (dest_of o) by done.
  destruct (given cl o); by rewrite !setattr_other.
Qed.

Lemma parse_db_option_rest (environ : gmap string string) (cl : CommandLine)
    (o : DbOption) (ns : Namespace) :
  let ns' := parse_db_option environ cl o ns in
  args_logger_config ns' = args_logger_config ns /\
  args_log_level ns' = args_log_level ns /\
  args_entry ns' = args_entry ns /\
  args_list ns' = args_list ns /\
  args_search ns' = args_search ns /\
  args_fuzzy ns' = args_fuzzy ns.
Proof.
  unfold parse_db_option, DefaultVariable_call.
  replace (action_dest (action_of environ o)) with (dest_of o) by done.
  destruct (given cl o), o; done.
Qed.

(** What a successful parse tells about the namespace. *)
Lemma get_arguments_returns (w : World) (cl : CommandLine) (args : Namespace) :
  result (get_arguments w cl) = inr args ->
  get_arguments w cl = ret args /\
  group_occurrences cl = 1%nat /\
  missing_required (os_environ w) cl = [] /\
  args_logger_config args = from_option id "" (cl_log_config cl) /\
  args_log_level args = from_option id "info" (cl_log_level cl) /\
  args_entry args = cl_get cl /\
  args_list args = cl_enumerate cl /\
  args_search args = cl_search cl /\
  args_fuzzy args = cl_fuzzy_search cl /\
  (forall o, value_of args o =
             match given cl o with
             | Some values => Some values
             | None => action_default (action_of (os_environ w) o)
             end).
Proof.
  unfold get_arguments.
  assert (Hlevel : forall k : string -> M Namespace,
    result (bind (match cl_log_level cl with
                  | None => ret "info"
                  | Some level =>
                      if mem_string level log_level_choices then ret level
                      else parser_fail (InvalidChoice "-L/--log-level" level)
                  end) k) = inr args ->
    bind (match cl_log_level cl with
          | None => ret "info"
          | Some level =>
              if mem_string level log_level_choices then ret level
              else parser_fail (InvalidChoice "-L/--log-level" level)
          end) k = k (from_option id "info" (cl_log_level cl))).
  { intros k. destruct (cl_log_level cl) as [level|].
    - destruct (mem_string level log_level_choices);
        [|intros Hd; cbn in Hd; discriminate].
      intros _. apply bind_ret.
    - intros _. apply bind_ret. }
  intros H. pose proof (Hlevel _ H) as E. rewrite E in H |- *. clear E Hlevel.
  destruct (1 <? group_occurrences cl)%nat eqn:Hmany; [discriminate|].
  rewrite bind_ret in H |- *.
  destruct (missing_required (os_environ w) cl) eqn:Hmissing; [|discriminate].
  rewrite bind_ret in H |- *.
  destruct (group_occurrences cl =? 0)%nat eqn:Hnone; [discriminate|].
  rewrite bind_ret in H |- *.
  match type of H with
  | context [parse_db_option _ _ DatabasePath ?n] => set (ns0 := n) in *
  end.
  simpl in H. injection H as <-.
  apply Nat.ltb_ge in Hmany. apply Nat.eqb_neq in Hnone.
  split; [done|]. split; [lia|]. split; [done|].
  pose proof (parse_db_option_rest (os_environ w) cl DatabaseKeyFile
    (parse_db_option (os_environ w) cl DatabasePassword
       (parse_db_option (os_environ w) cl DatabasePath ns0))) as (K1&K2&K3&K4&K5&K6).
  pose proof (parse_db_option_rest (os_environ w) cl DatabasePassword
       (parse_db_option (os_environ w) cl DatabasePath ns0)) as (P1&P2&P3&P4&P5&P6).
  pose proof (parse_db_option_rest (os_environ w) cl DatabasePath ns0)
    as (D1&D2&D3&D4&D5&D6).
  simpl in *.
  rewrite K1, K2, K3, K4, K5, K6, P1, P2, P3, P4, P5, P6,
    D1, D2, D3, D4, D5, D6.
  repeat split.
  intros o. destruct o.
  - rewrite !parse_db_option_other by done. apply parse_db_option_same.
  - rewrite parse_db_option_other by done. apply parse_db_option_same.
  - apply parse_db_option_same.
Qed.

(** ** [main]: the common prefix of every run *)

Lemma main_parsed (w : World) (cl : CommandLine) (args : Namespace) :
  result (get_arguments w cl) = inr args -> main w cl = run w args.
Proof.
  intros H. apply get_arguments_returns in H as [H _].
  unfold main. rewrite H. apply bind_ret.
Qed.

Lemma open_database_opened (w : World) (args : Namespace) (db : Database) :
  EnpassDB w (args_path args) (args_password args) (args_key_file args) = inr db ->
  open_database w args =
  ([OpenDatabase (args_path args) (args_password args) (args_key_file args)],
   inr db).
Proof. unfold open_database, call. by intros ->. Qed.

Lemma open_database_failed (w : World) (args : Namespace) :
  EnpassDB w (args_path args) (args_password args) (args_key_file args)
    = inl EnpassDatabaseError ->
  open_database w args =
  ([OpenDatabase (args_path args) (args_password args) (args_key_file args);
    LogError open_failure_message],
   inl (SystemExit 1)).
Proof. unfold open_database, call. by intros ->. Qed.

(** Once logging is set up and the database is open, the run continues with
    the retrieval modes. *)
Lemma run_opened (w : World) (args : Namespace) (db : Database) :
  result (setup_logging w (args_log_level args) (args_logger_config args))
    = inr tt ->
  EnpassDB w (args_path args) (args_password args) (args_key_file args) = inr db ->
  run w args =
  (trace (setup_logging w (args_log_level args) (args_logger_config args))
   ++ OpenDatabase (args_path args) (args_password args) (args_key_file args)
   :: trace (retrieve w args db),
   result (retrieve w args db)).
Proof.
  intros Hlog Hdb. unfold run.
  rewrite (bind_returns _ _ tt Hlog).
  rewrite (open_database_opened _ _ _ Hdb).
  by rewrite (bind_returns (_, inr db) _ db eq_refl).
Qed.

(** ** Opening the database fails *)

(** C2: when [EnpassDB] raises [EnpassDatabaseError], the run logs the
    user-facing error message and ends at once with exit code 1: after the
    attempt to open the database the only event is that log line, so no
    retrieval mode is started and nothing is printed. *)
Theorem open_failure_exits_1 (w : World) (cl : CommandLine) (args : Namespace) :
  result (get_arguments w cl) = inr args ->
  result (setup_logging w (args_log_level args) (args_logger_config args))
    = inr tt ->
  EnpassDB w (args_path args) (args_password args) (args_key_file args)
    = inl EnpassDatabaseError ->
  result (main w cl) = inl (SystemExit 1) /\
  trace (main w cl) =
    trace (setup_logging w (args_log_level args) (args_logger_config args))
    ++ [OpenDatabase (args_path args) (args_password args) (args_key_file args);
        LogError open_failure_message] /\
  error_log (trace (main w cl)) = [open_failure_message] /\
  stdout (trace (main w cl)) = [] /\
  forallb (fun ev => negb (is_retrieval_event ev)) (trace (main w cl)) = true.
Proof.
  intros Hargs Hlog Hdb.
  rewrite (main_parsed _ _ _ Hargs). unfold run.
  rewrite (bind_returns _ _ tt Hlog).
  rewrite (open_database_failed _ _ Hdb).
  rewrite (bind_raises (_, inl (SystemExit 1)) _ (SystemExit 1) eq_refl). simpl.
  destruct (logging_events_silent _ (setup_logging_returns _ _ _ Hlog))
    as (Hout & Herr & _ & Hretr).
  rewrite stdout_app, error_log_app, forallb_app, Hout, Herr, Hretr.
  done.
Qed.

Lemma open_failure_exits_1_witness :
  result (main (Samples.world Samples.two_entries (inr "mail"))
               {| cl_log_config := None; cl_log_level := None;
                  cl_database_path := None;
                  cl_database_password := Some "wrong";
                  cl_database_key_file := None;
                  cl_get := Some "mail"; cl_enumerate := false;
                  cl_search := false; cl_fuzzy_search := false |})
    = inl (SystemExit 1).
Proof.
  eapply (open_failure_exits_1 _ _
            (Samples.bad_password (Samples.args "" (Some "mail") false false false)));
    reflexivity.
Defined.

(** ** The logging configuration file *)

(** C6: when the given log-config file can be read and its contents are not
    valid JSON ([json.loads] raises [JSONDecodeError]), the whole run consists
    of reading the file and printing the message that names it; it ends with
    exit code 1, and the database is never opened. *)
Theorem invalid_json_exits_1 (w : World) (cl : CommandLine) (args : Namespace)
    (config_file contents : string) :
  result (get_arguments w cl) = inr args ->
  cl_log_config cl = Some config_file ->
  truthy config_file = true ->
  open_read w config_file = inr contents ->
  json_loads w contents = inl JSONDecodeError ->
  main w cl =
    ([OpenRead config_file; Print (not_valid_json_message config_file)],
     inl (SystemExit 1)) /\
  forallb (fun ev => negb (is_db_event ev)) (trace (main w cl)) = true.
Proof.
  intros Hargs Hcl Hgiven Hread Hjson.
  rewrite (main_parsed _ _ _ Hargs).
  apply get_arguments_returns in Hargs as (_ & _ & _ & Hconfig & _).
  rewrite Hcl in Hconfig; simpl in Hconfig.
  assert (Hsetup : setup_logging w (args_log_level args) (args_logger_config args)
                   = ([OpenRead config_file;
                       Print (not_valid_json_message config_file)],
                      inl (SystemExit 1))).
  { unfold setup_logging. rewrite Hconfig, Hgiven. unfold call at 1.
    rewrite Hread. cbn. by rewrite Hjson. }
  unfold run. rewrite Hsetup.
  by rewrite (bind_raises (_, inl (SystemExit 1)) _ (SystemExit 1) eq_refl).
Qed.

Lemma invalid_json_exits_1_witness :
  main (Samples.world Samples.two_entries (inr "mail"))
       {| cl_log_config := Some "broken.json"; cl_log_level := None;
          cl_database_path := None; cl_database_password := None;
          cl_database_key_file := None;
          cl_get := Some "mail"; cl_enumerate := false;
          cl_search := false; cl_fuzzy_search := false |}
  = ([OpenRead "broken.json"; Print (not_valid_json_message "broken.json")],
     inl (SystemExit 1)).
Proof.
  eapply (invalid_json_exits_1 _ _
            (Samples.args "broken.json" (Some "mail") false false false)
            "broken.json" "{");
    reflexivity.
Defined.

(** C9: when a log-config path is given and no file exists there, [open]
    raises [FileNotFoundError]; it is no [ValueError], so nothing catches it:
    the run ends with that exception uncaught, prints no message, and does not
    exit with code 1. *)
Theorem missing_config_file_uncaught (w : World) (cl : CommandLine)
    (args : Namespace) (config_file : string) :
  result (get_arguments w cl) = inr args ->
  cl_log_config cl = Some config_file ->
  truthy config_file = true ->
  open_read w config_file = inl FileNotFoundError ->
  setup_logging w (args_log_level args) (args_logger_config args)
    = ([OpenRead config_file], inl FileNotFoundError) /\
  main w cl = ([OpenRead config_file], inl FileNotFoundError) /\
  result (main w cl) <> inl (SystemExit 1).
Proof.
  intros Hargs Hcl Hgiven Hread.
  rewrite (main_parsed _ _ _ Hargs).
  apply get_arguments_returns in Hargs as (_ & _ & _ & Hconfig & _).
  rewrite Hcl in Hconfig; simpl in Hconfig.
  assert (Hsetup : setup_logging w (args_log_level args) (args_logger_config args)
                   = ([OpenRead config_file], inl FileNotFoundError)).
  { unfold setup_logging. rewrite Hconfig, Hgiven. unfold call at 1.
    by rewrite Hread. }
  unfold run. rewrite Hsetup.
  by rewrite (bind_raises (_, inl FileNotFoundError) _ FileNotFoundError eq_refl).
Qed.

Lemma missing_config_file_uncaught_witness :
  main (Samples.world Samples.two_entries (inr "mail"))
       {| cl_log_config := Some "missing.json"; cl_log_level := None;
          cl_database_path := None; cl_database_password := None;
          cl_database_key_file := None;
          cl_get := Some "mail"; cl_enumerate := false;
          cl_search := false; cl_fuzzy_search := false |}
  = ([OpenRead "missing.json"], inl FileNotFoundError).
Proof.
  eapply (missing_config_file_uncaught _ _
            (Samples.args "missing.json" (Some "mail") false false false)
            "missing.json");
    reflexivity.
Defined.

(** C10: with a non-empty log-config path, [setup_logging] never consults the
    level: any two levels give the same events and the same outcome, and two
    runs whose arguments differ in the log level only are the same run. *)
Theorem log_level_ignored_with_config (w : World) (config_file : string)
    (level1 level2 : string) (args : Namespace) :
  truthy config_file = true ->
  setup_logging w level1 config_file = setup_logging w level2 config_file /\
  (args_logger_config args = config_file ->
   run w (with_log_level level1 args) = run w (with_log_level level2 args)).
Proof.
  intros Hgiven.
  assert (Hsame : setup_logging w level1 config_file
                  = setup_logging w level2 config_file).
  { unfold setup_logging. by rewrite Hgiven. }
  split; [done|].
  intros Hcfg. unfold run, open_database. simpl. by rewrite Hcfg, Hsame.
Qed.

Lemma log_level_ignored_with_config_witness :
  setup_logging (Samples.world Samples.two_entries (inr "mail"))
                "debug" "logging.json"
  = setup_logging (Samples.world Samples.two_entries (inr "mail"))
                  "critical" "logging.json".
Proof.
  eapply (log_level_ignored_with_config _ "logging.json" "debug" "critical"
            (Samples.args "logging.json" None true false false)).
  reflexivity.
Defined.

(** Without a config file the level does matter. *)
Example log_level_used_without_config :
  setup_logging (Samples.world Samples.two_entries (inr "mail")) "debug" ""
  <> setup_logging (Samples.world Samples.two_entries (inr "mail")) "critical" "".
Proof. discriminate. Qed.

(** ** The retrieval modes *)

Lemma retrieve_get (w : World) (args : Namespace) (db : Database)
    (entry_title : string) :
  args_list args = false ->
  args_entry args = Some entry_title ->
  truthy entry_title = true ->
  retrieve w args db = lookup_and_print db entry_title.
Proof.
  intros Hlist Hentry Htitle. unfold retrieve.
  rewrite Hlist, Hentry. cbn [truthy_opt]. rewrite Htitle.
  rewrite !bind_ret. cbn [read_local]. by rewrite bind_ret.
Qed.

Lemma retrieve_unbound (w : World) (args : Namespace) (db : Database) :
  args_list args = false ->
  truthy_opt (args_entry args) = false ->
  args_search args = false ->
  args_fuzzy args = false ->
  retrieve w args db = ([], inl (UnboundLocalError "entry_title")).
Proof.
  intros Hlist Hentry Hsearch Hfuzzy. unfold retrieve.
  by rewrite Hlist, Hentry, Hsearch, Hfuzzy.
Qed.

Lemma retrieve_enumerate_empty (w : World) (args : Namespace) (db : Database) :
  args_list args = true ->
  entries db = [] ->
  truthy_opt (args_entry args) = false ->
  args_search args = false ->
  args_fuzzy args = false ->
  retrieve w args db = ([ReadEntries], inl (UnboundLocalError "entry_title")).
Proof.
  intros Hlist Hentries Hentry Hsearch Hfuzzy. unfold retrieve.
  by rewrite Hlist, Hentries, Hentry, Hsearch, Hfuzzy.
Qed.

(** The loop of the enumerate mode ends the run in its first round. *)
Lemma retrieve_enumerate_first (w : World) (args : Namespace) (db : Database)
    (first : Entry) (others : list Entry) :
  args_list args = true ->
  entries db = first :: others ->
  retrieve w args db =
  ([ReadEntries; Print (entry_line first)], inl (SystemExit 0)).
Proof.
  intros Hlist Hentries. unfold retrieve.
  by rewrite Hlist, Hentries.
Qed.

Lemma retrieve_interrupted (w : World) (args : Namespace) (db : Database) :
  args_list args = false ->
  truthy_opt (args_entry args) = false ->
  args_search args || args_fuzzy args = true ->
  prompt w "Title :"
         (if args_search args then EnpassCompleter db
          else FuzzyCompleter (EnpassCompleter db)) = inl KeyboardInterrupt ->
  retrieve w args db =
  ([Prompt "Title :" (negb (args_search args))], inl (SystemExit 0)).
Proof.
  intros Hlist Hentry Hmode Hprompt. unfold retrieve.
  rewrite Hlist, Hentry, Hmode. unfold call at 1. by rewrite Hprompt.
Qed.

(** *** Interactive search *)

(** C5: in search or fuzzy-search mode, when the prompt is ended by a keyboard
    interrupt the run exits with code 0; nothing was printed or logged, and no
    entry was looked up. *)
Theorem interrupted_prompt_exits_0 (w : World) (cl : CommandLine)
    (args : Namespace) (db : Database) :
  result (get_arguments w cl) = inr args ->
  cl_search cl = true \/ cl_fuzzy_search cl = true ->
  result (setup_logging w (args_log_level args) (args_logger_config args))
    = inr tt ->
  EnpassDB w (args_path args) (args_password args) (args_key_file args) = inr db ->
  prompt w "Title :"
         (if cl_search cl then EnpassCompleter db
          else FuzzyCompleter (EnpassCompleter db)) = inl KeyboardInterrupt ->
  result (main w cl) = inl (SystemExit 0) /\
  stdout (trace (main w cl)) = [] /\
  error_log (trace (main w cl)) = [] /\
  trace (main w cl) =
    trace (setup_logging w (args_log_level args) (args_logger_config args))
    ++ [OpenDatabase (args_path args) (args_password args) (args_key_file args);
        Prompt "Title :" (negb (cl_search cl))].
Proof.
  intros Hargs Hmode Hlog Hdb Hprompt.
  rewrite (main_parsed _ _ _ Hargs), (run_opened _ _ _ Hlog Hdb).
  apply get_arguments_returns in Hargs
    as (_ & Hone & _ & _ & _ & Hentry & Hlist & Hsearch & Hfuzzy & _).
  assert (Hretrieve : retrieve w args db =
            ([Prompt "Title :" (negb (cl_search cl))], inl (SystemExit 0))).
  { destruct (prompt_alone _ Hone Hmode) as [Hget Henum].
    rewrite <- Hsearch. apply retrieve_interrupted.
    - by rewrite Hlist.
    - by rewrite Hentry, Hget.
    - rewrite Hsearch, Hfuzzy. destruct Hmode as [-> | ->]; [done|].
      apply orb_true_r.
    - by rewrite Hsearch. }
  rewrite Hretrieve. simpl.
  destruct (logging_events_silent _ (setup_logging_returns _ _ _ Hlog))
    as (Hout & Herr & _ & _).
  by rewrite stdout_app, error_log_app, Hout, Herr.
Qed.

Lemma interrupted_prompt_exits_0_witness :
  result (main (Samples.world Samples.two_entries (inl KeyboardInterrupt))
               (Samples.command_line None false false true))
  = inl (SystemExit 0).
Proof.
  eapply (interrupted_prompt_exits_0 _ _
            (Samples.args "" None false false true) Samples.two_entries);
    first [reflexivity | by right].
Defined.

(** *** No title is ever bound *)

(** C8: enumerate mode over a database without entries, and direct-get mode
    with the empty title, both arrive at the lookup with [entry_title]
    unbound: the run ends with an uncaught [UnboundLocalError] (no
    [SystemExit] at all), having looked up, printed and logged nothing. *)
Theorem unbound_title_raises (w : World) (cl : CommandLine) (args : Namespace)
    (db : Database) :
  result (get_arguments w cl) = inr args ->
  result (setup_logging w (args_log_level args) (args_logger_config args))
    = inr tt ->
  EnpassDB w (args_path args) (args_password args) (args_key_file args) = inr db ->
  (cl_enumerate cl = true /\ entries db = []) \/ cl_get cl = Some "" ->
  result (main w cl) = inl (UnboundLocalError "entry_title") /\
  (forall code, result (main w cl) <> inl (SystemExit code)) /\
  stdout (trace (main w cl)) = [] /\
  error_log (trace (main w cl)) = [] /\
  (forall t, GetEntry t ∉ trace (main w cl)).
Proof.
  intros Hargs Hlog Hdb Hcase.
  rewrite (main_parsed _ _ _ Hargs), (run_opened _ _ _ Hlog Hdb).
  apply get_arguments_returns in Hargs
    as (_ & Hone & _ & _ & _ & Hentry & Hlist & Hsearch & Hfuzzy & _).
  destruct (logging_events_silent _ (setup_logging_returns _ _ _ Hlog))
    as (Hout & Herr & Hdbev & _).
  assert (Hretrieve :
    exists tr, retrieve w args db = (tr, inl (UnboundLocalError "entry_title"))
               /\ (tr = [] \/ tr = [ReadEntries])).
  { destruct Hcase as [[Henum Hempty] | Hget].
    - exists [ReadEntries]. split; [|by right].
      destruct (enumerate_alone _ Hone Henum) as (H1 & H2 & H3).
      apply retrieve_enumerate_empty; try congruence.
      by rewrite Hentry, H1.
    - exists []. split; [|by left].
      destruct (get_alone _ _ Hone Hget) as (H1 & H2 & H3).
      apply retrieve_unbound; try congruence.
      by rewrite Hentry, Hget. }
  destruct Hretrieve as (tr & -> & Htr). simpl.
  split; [done|]. split; [done|].
  rewrite stdout_app, error_log_app, Hout, Herr.
  split; [by destruct Htr as [-> | ->]|].
  split; [by destruct Htr as [-> | ->]|].
  intros t [Hin | Hin]%elem_of_app.
  - apply list_elem_of_In in Hin.
    rewrite forallb_forall in Hdbev. by specialize (Hdbev _ Hin).
  - apply list_elem_of_In in Hin.
    destruct Htr as [-> | ->]; simpl in Hin; intuition discriminate.
Qed.

Lemma unbound_title_raises_witness :
  result (main (Samples.world Samples.no_entries (inr "mail"))
               (Samples.command_line None true false false))
  = inl (UnboundLocalError "entry_title") /\
  result (main (Samples.world Samples.two_entries (inr "mail"))
               (Samples.command_line (Some "") false false false))
  = inl (UnboundLocalError "entry_title").
Proof.
  split.
  - eapply (unbound_title_raises _ _
              (Samples.args "" None true false false) Samples.no_entries);
      first [reflexivity | by left].
  - eapply (unbound_title_raises _ _
              (Samples.args "" (Some "") false false false) Samples.two_entries);
      first [reflexivity | by right].
Defined.

(** *** Enumerate *)

(** In enumerate mode over a database that holds at least one entry, the run
    prints the line of the first entry and exits with code 0 from inside the
    loop: the other entries are never printed. *)
Lemma enumerate_prints_first_only (w : World) (cl : CommandLine)
    (args : Namespace) (db : Database) (first : Entry) (others : list Entry) :
  result (get_arguments w cl) = inr args ->
  cl_enumerate cl = true ->
  result (setup_logging w (args_log_level args) (args_logger_config args))
    = inr tt ->
  EnpassDB w (args_path args) (args_password args) (args_key_file args) = inr db ->
  entries db = first :: others ->
  result (main w cl) = inl (SystemExit 0) /\
  stdout (trace (main w cl)) = [entry_line first].
Proof.
  intros Hargs Henum Hlog Hdb Hentries.
  rewrite (main_parsed _ _ _ Hargs), (run_opened _ _ _ Hlog Hdb).
  apply get_arguments_returns in Hargs
    as (_ & _ & _ & _ & _ & _ & Hlist & _).
  rewrite (retrieve_enumerate_first w args db first others)
    by congruence.
  simpl. split; [done|].
  destruct (logging_events_silent _ (setup_logging_returns _ _ _ Hlog))
    as (Hout & _).
  by rewrite stdout_app, Hout.
Qed.

(** C1, as the code runs: [--enumerate] over the database of two entries
    prints the line of the first entry only and exits with code 0, where one
    line per stored entry would be two lines. *)
Theorem enumerate_two_entries_prints_one_line :
  let r := main (Samples.world Samples.two_entries (inr "mail"))
                (Samples.command_line None true false false) in
  result r = inl (SystemExit 0) /\
  stdout (trace r) = ["github: hunter2"] /\
  map entry_line (entries Samples.two_entries)
    = ["github: hunter2"; "mail: s3cret"] /\
  stdout (trace r) <> map entry_line (entries Samples.two_entries).
Proof.
  destruct (enumerate_prints_first_only
              (Samples.world Samples.two_entries (inr "mail"))
              (Samples.command_line None true false false)
              (Samples.args "" None true false false)
              Samples.two_entries Samples.github [Samples.mail])
    as [Hres Hout]; try reflexivity.
  cbv zeta. rewrite Hres, Hout. repeat split; discriminate.
Qed.

(** *** Direct get *)

(** With a non-empty title, direct-get mode looks the title up; when the
    database has no such entry the run logs the error that names the title
    and exits with code 1, printing nothing. *)
Lemma get_missing_title_exits_1 (w : World) (cl : CommandLine)
    (args : Namespace) (db : Database) (entry_title : string) :
  result (get_arguments w cl) = inr args ->
  cl_get cl = Some entry_title ->
  truthy entry_title = true ->
  result (setup_logging w (args_log_level args) (args_logger_config args))
    = inr tt ->
  EnpassDB w (args_path args) (args_password args) (args_key_file args) = inr db ->
  get_entry db entry_title = None ->
  result (main w cl) = inl (SystemExit 1) /\
  error_log (trace (main w cl)) = [not_found_message entry_title] /\
  stdout (trace (main w cl)) = [].
Proof.
  intros Hargs Hget Htitle Hlog Hdb Hnone.
  rewrite (main_parsed _ _ _ Hargs), (run_opened _ _ _ Hlog Hdb).
  apply get_arguments_returns in Hargs
    as (_ & Hone & _ & _ & _ & Hentry & Hlist & _).
  destruct (get_alone _ _ Hone Hget) as (Henum & _).
  rewrite (retrieve_get w args db entry_title) by congruence.
  unfold lookup_and_print, call. rewrite Hnone. simpl.
  destruct (logging_events_silent _ (setup_logging_returns _ _ _ Hlog))
    as (Hout & Herr & _).
  by rewrite stdout_app, error_log_app, Hout, Herr.
Qed.

(** With a non-empty title that the database knows, direct-get mode prints
    the password of the entry, and nothing else, and exits with code 0. *)
Lemma get_found_title_prints_password (w : World) (cl : CommandLine)
    (args : Namespace) (db : Database) (entry_title : string) (found : Entry) :
  result (get_arguments w cl) = inr args ->
  cl_get cl = Some entry_title ->
  truthy entry_title = true ->
  result (setup_logging w (args_log_level args) (args_logger_config args))
    = inr tt ->
  EnpassDB w (args_path args) (args_password args) (args_key_file args) = inr db ->
  get_entry db entry_title = Some found ->
  result (main w cl) = inl (SystemExit 0) /\
  stdout (trace (main w cl)) = [password found] /\
  error_log (trace (main w cl)) = [].
Proof.
  intros Hargs Hget Htitle Hlog Hdb Hsome.
  rewrite (main_parsed _ _ _ Hargs), (run_opened _ _ _ Hlog Hdb).
  apply get_arguments_returns in Hargs
    as (_ & Hone & _ & _ & _ & Hentry & Hlist & _).
  destruct (get_alone _ _ Hone Hget) as (Henum & _).
  rewrite (retrieve_get w args db entry_title) by congruence.
  unfold lookup_and_print, call. rewrite Hsome. simpl.
  destruct (logging_events_silent _ (setup_logging_returns _ _ _ Hlog))
    as (Hout & Herr & _).
  by rewrite stdout_app, error_log_app, Hout, Herr.
Qed.

(** C3, as the code runs: [--get] with the empty title, which no entry of the
    database carries.  The title is never looked up, no error is logged, and
    the run ends with an uncaught [UnboundLocalError] where an error naming
    the title and exit code 1 are due. *)
Theorem get_empty_title_missing_logs_nothing :
  let r := main (Samples.world Samples.two_entries (inr "mail"))
                (Samples.command_line (Some "") false false false) in
  get_entry Samples.two_entries "" = None /\
  result r = inl (UnboundLocalError "entry_title") /\
  error_log (trace r) = [] /\
  result r <> inl (SystemExit 1).
Proof. cbv zeta. repeat split; discriminate. Qed.

(** C4, as the code runs: [--get] with the empty title over a database that
    holds an entry saved without a title.  The lookup would return that
    entry, yet nothing is printed and the run ends with an uncaught
    [UnboundLocalError] where the password and exit code 0 are due. *)
Theorem get_empty_title_found_prints_nothing :
  let r := main (Samples.world Samples.with_untitled (inr "mail"))
                (Samples.command_line (Some "") false false false) in
  get_entry Samples.with_untitled "" = Some Samples.untitled /\
  result r = inl (UnboundLocalError "entry_title") /\
  stdout (trace r) = [] /\
  result r <> inl (SystemExit 0).
Proof. cbv zeta. repeat split; discriminate. Qed.

(** ** The database options and the environment *)

Lemma action_default_of (environ : gmap string string) (o : DbOption) :
  action_default (action_of environ o) =
  match environ !! variable_of o with
  | Some value => Some value
  | None => declared_default o
  end.
Proof. by destruct o. Qed.

Lemma action_required_of (environ : gmap string string) (o : DbOption) :
  action_required (action_of environ o) =
  declared_required o && negb (truthy_opt (action_default (action_of environ o))).
Proof.
  rewrite action_default_of.
  assert (Hlookup : negb (truthy_opt (declared_default o))
                    && truthy (variable_of o) = true) by (by destruct o).
  unfold action_of, DefaultVariable. cbn [action_required].
  rewrite Hlookup.
  destruct (environ !! variable_of o) as [value|].
  - cbn [truthy_opt]. by destruct (declared_required o), (truthy value).
  - by destruct o.
Qed.

Lemma not_missing_when_not_required (environ : gmap string string)
    (cl : CommandLine) (o : DbOption) :
  action_required (action_of environ o) = false ->
  flags_of o ∉ missing_required environ cl.
Proof.
  intros Hreq Hin. apply list_elem_of_In in Hin.
  unfold missing_required in Hin. cbn -[action_of given] in Hin.
  destruct o; rewrite Hreq in Hin;
    repeat match type of Hin with
           | context [action_required ?a] => destruct (action_required a)
           | context [given ?c ?x] => destruct (given c x)
           end;
    simpl in Hin; try done; intuition congruence.
Qed.

(** C7: for each of [--database-path], [--database-password] and
    [--database-key-file], the action's default is the value of the matching
    environment variable whenever that variable is set; with a non-empty
    value there the option is not required any more and is never reported as
    missing; and in every successful parse the namespace holds the value given
    on the command line when the option occurs, whatever the environment says,
    and the action's default when it does not. *)
Theorem database_options_default_from_environment (w : World) (o : DbOption) :
  let action := action_of (os_environ w) o in
  (forall value, os_environ w !! variable_of o = Some value ->
     action_default action = Some value) /\
  (os_environ w !! variable_of o = None ->
     action_default action = declared_default o /\
     action_required action = declared_required o) /\
  (forall value, os_environ w !! variable_of o = Some value ->
     truthy value = true ->
     action_required action = false /\
     forall cl, flags_of o ∉ missing_required (os_environ w) cl) /\
  (forall cl args, result (get_arguments w cl) = inr args ->
     match given cl o with
     | Some values => value_of args o = Some values
     | None => value_of args o = action_default action
     end).
Proof.
  cbv zeta.
  assert (Hlifted : forall value, os_environ w !! variable_of o = Some value ->
            truthy value = true ->
            action_required (action_of (os_environ w) o) = false).
  { intros value Henv Hvalue.
    rewrite action_required_of, action_default_of, Henv. cbn [truthy_opt].
    rewrite Hvalue. apply andb_false_r. }
  split; [|split; [|split]].
  - intros value Henv. by rewrite action_default_of, Henv.
  - intros Henv. split.
    + by rewrite action_default_of, Henv.
    + rewrite action_required_of, action_default_of, Henv. by destruct o.
  - intros value Henv Hvalue. split; [by eapply Hlifted|].
    intros cl. apply not_missing_when_not_required. by eapply Hlifted.
  - intros cl args Hargs.
    apply get_arguments_returns in Hargs
      as (_ & _ & _ & _ & _ & _ & _ & _ & _ & Hvalue).
    rewrite (Hvalue o). by destruct (given cl o).
Qed.

(** With both variables set, a command line that names a mode only is
    accepted and the database options come from the environment. *)
Example options_from_environment :
  result (get_arguments (Samples.world Samples.two_entries (inr "mail"))
                        (Samples.command_line None true false false))
  = inr (Samples.args "" None true false false).
Proof. reflexivity. Qed.

(** A value on the command line wins over the environment. *)
Example command_line_overrides_environment :
  let cl := {| cl_log_config := None; cl_log_level := None;
               cl_database_path := Some "other";
               cl_database_password := None;
               cl_database_key_file := Some "keys";
               cl_get := None; cl_enumerate := true;
               cl_search := false; cl_fuzzy_search := false |} in
  exists args,
    result (get_arguments (Samples.world Samples.two_entries (inr "mail")) cl)
      = inr args /\
    args_path args = Some "other" /\
    args_password args = Some "pw" /\
    args_key_file args = Some "keys".
Proof. eexists. repeat split. Qed.

(** A variable set to the empty string gives an empty default, which does not
    lift the requirement: the absent option is still reported. *)
Example empty_variable_still_required :
  let w := {| os_environ := {[ "ENPASS_DB_PATH" := ""; "ENPASS_DB_PASSWORD" := "pw" ]};
              open_read := fun _ => inl FileNotFoundError;
              json_loads := fun _ => inl JSONDecodeError;
              dictConfig := fun _ => None;
              EnpassDB := fun _ _ _ => inl EnpassDatabaseError;
              prompt := fun _ _ => inl EOFError |} in
  action_default (action_of (os_environ w) DatabasePath) = Some "" /\
  action_required (action_of (os_environ w) DatabasePath) = true /\
  get_arguments w (Samples.command_line None true false false)
  = ([ParserError (ArgumentsRequired ["-d/--database-path"])],
     inl (SystemExit 2)).
Proof. cbv zeta. repeat split. Qed.

(** * Further properties of the script *)

(** ** How [main] ends *)

Lemma bind_always_raises {A B} (c : M A) (k : A -> M B) :
  (forall x, exists e, result (k x) = inl e) ->
  exists e, result (bind c k) = inl e.
Proof.
  intros Hk. destruct c as [tr [e|x]]; simpl; [by exists e|].
  destruct (Hk x) as [e He]. exists e. by destruct (k x).
Qed.

Lemma retrieve_always_raises (w : World) (args : Namespace) (db : Database) :
  exists e, result (retrieve w args db) = inl e.
Proof.
  unfold retrieve.
  apply bind_always_raises; intros _.
  apply bind_always_raises; intros entry_title.
  apply bind_always_raises; intros looked_up.
  apply bind_always_raises; intros [found|]; by eexists.
Qed.

(** [main] has no normal return: on every command line and in every world
    the run ends by raising, be it [SystemExit] or an exception nothing
    catches. *)
Theorem main_always_raises (w : World) (cl : CommandLine) :
  exists e, result (main w cl) = inl e.
Proof.
  unfold main. apply bind_always_raises; intros args.
  unfold run. apply bind_always_raises; intros _.
  apply bind_always_raises; intros db.
  apply retrieve_always_raises.
Qed.

(** ** What the parser accepts *)

Lemma get_arguments_raises (w : World) (cl : CommandLine) (e : exn) :
  result (get_arguments w cl) = inl e ->
  exists reason,
    get_arguments w cl = ([ParserError reason], inl (SystemExit 2)).
Proof.
  unfold get_arguments. intros H.
  destruct (cl_log_level cl) as [level|];
    [destruct (mem_string level log_level_choices)|];
    try (by eexists);
    rewrite bind_ret in H |- *;
    (destruct (1 <? group_occurrences cl)%nat; [by eexists|]);
    rewrite bind_ret in H |- *;
    (destruct (missing_required (os_environ w) cl); [|by eexists]);
    rewrite bind_ret in H |- *;
    (destruct (group_occurrences cl =? 0)%nat; [by eexists|]);
    rewrite bind_ret in H; discriminate.
Qed.

(** When the parser refuses the command line the run is over: the only event
    is the parser's complaint and the exit code is 2; logging is not set up
    and the database is not opened. *)
Theorem parser_error_ends_run (w : World) (cl : CommandLine) (e : exn) :
  result (get_arguments w cl) = inl e ->
  e = SystemExit 2 /\
  exists reason, main w cl = ([ParserError reason], inl (SystemExit 2)).
Proof.
  intros H. destruct (get_arguments_raises _ _ _ H) as [reason Hfail].
  rewrite Hfail in H. simpl in H. injection H as <-.
  split; [done|]. exists reason. unfold main. by rewrite Hfail.
Qed.

Lemma parser_error_ends_run_witness :
  SystemExit 2 = SystemExit 2 /\
  exists reason,
    main (Samples.world Samples.two_entries (inr "mail"))
         (Samples.command_line None false false false)
    = ([ParserError reason], inl (SystemExit 2)).
Proof.
  apply (parser_error_ends_run
           (Samples.world Samples.two_entries (inr "mail"))
           (Samples.command_line None false false false) (SystemExit 2)).
  reflexivity.
Defined.

Lemma missing_required_nil (environ : gmap string string) (cl : CommandLine) :
  missing_required environ cl = [] <->
  supplied environ cl DatabasePath /\ supplied environ cl DatabasePassword.
Proof.
  assert (Hkey : action_required (action_of environ DatabaseKeyFile) = false).
  { rewrite action_required_of. done. }
  assert (Hone : forall o, declared_required o = true ->
            (action_required (action_of environ o) = false \/ is_Some (given cl o))
            <-> supplied environ cl o).
  { intros o Hdecl. unfold supplied.
    rewrite action_required_of, action_default_of, Hdecl. simpl.
    destruct (environ !! variable_of o) as [value|] eqn:Henv.
    - cbn [truthy_opt]. destruct (truthy value) eqn:Hvalue; simpl.
      + split; [intros _; right; eauto | intros _; by left].
      + split.
        * intros [H|H]; [done | by left].
        * intros [H|(v & Hv & Htrue)]; [by right | congruence].
    - assert (Hdefault : truthy_opt (declared_default o) = false)
        by (by destruct o).
      rewrite Hdefault. simpl. split.
      + intros [H|H]; [done | by left].
      + intros [H|(v & Hv & _)]; [by right | congruence]. }
  rewrite <- (Hone DatabasePath eq_refl), <- (Hone DatabasePassword eq_refl).
  unfold missing_required. cbn -[action_of given].
  rewrite Hkey.
  destruct (action_required (action_of environ DatabasePath)),
           (action_required (action_of environ DatabasePassword)),
           (given cl DatabasePath) as [p|], (given cl DatabasePassword) as [q|];
    simpl; split; try done; try (intros _; split; eauto);
    intros [[H1|H1] [H2|H2]]; try done;
    try (by destruct H1); by destruct H2.
Qed.


Lemma get_arguments_level (w : World) (cl : CommandLine) (args : Namespace) :
  result (get_arguments w cl) = inr args -> level_accepted cl.
Proof.
  unfold level_accepted, get_arguments.
  destruct (cl_log_level cl) as [level|]; [|done].
  by destruct (mem_string level log_level_choices).
Qed.


Lemma parsed_options_present (w : World) (cl : CommandLine) (args : Namespace)
    (o : DbOption) :
  result (get_arguments w cl) = inr args -> is_Some (value_of args o).
Proof.
  intros Hargs.
  apply get_arguments_returns in Hargs
    as (_ & _ & Hmissing & _ & _ & _ & _ & _ & _ & Hvalue).
  rewrite (Hvalue o).
  destruct (given cl o) as [values|] eqn:Hgiven; [done|].
  rewrite action_default_of.
  destruct (os_environ w !! variable_of o) as [value|] eqn:Henv; [done|].
  apply missing_required_nil in Hmissing as [Hpath Hpass].
  destruct o; [| |done].
  - destruct Hpath as [Hsome|(v & Hv & _)]; [|congruence].
    rewrite Hgiven in Hsome. by destruct Hsome.
  - destruct Hpass as [Hsome|(v & Hv & _)]; [|congruence].
    rewrite Hgiven in Hsome. by destruct Hsome.
Qed.

(** ** The events of a run *)

Lemma trace_bind {A B} (c : M A) (k : A -> M B) (ev : event) :
  ev ∈ trace (bind c k) ->
  ev ∈ trace c \/ exists x, result c = inr x /\ ev ∈ trace (k x).
Proof.
  destruct c as [tr [e|x]]; simpl; [by left|].
  destruct (k x) as [tr' r] eqn:Hk. simpl.
  intros [Hin|Hin]%elem_of_app; [by left|].
  right. exists x. by rewrite Hk.
Qed.

Lemma setup_logging_events (w : World) (level config_file : string) :
  forallb is_setup_event (trace (setup_logging w level config_file)) = true.
Proof.
  unfold setup_logging.
  destruct (truthy config_file); [|done].
  destruct (open_read w config_file) as [e|contents]; simpl.
  { by destruct (isinstance_ValueError e). }
  destruct (json_loads w contents) as [e|configuration]; simpl.
  { by destruct (isinstance_ValueError e). }
  destruct (dictConfig w configuration) as [e|]; simpl; [|done].
  by destruct (isinstance_ValueError e).
Qed.

Lemma forallb_bind {A B} (P : event -> bool) (c : M A) (k : A -> M B) :
  forallb P (trace c) = true ->
  (forall x, forallb P (trace (k x)) = true) ->
  forallb P (trace (bind c k)) = true.
Proof.
  intros Hc Hk. destruct c as [tr [e|x]]; simpl in *; [done|].
  specialize (Hk x). destruct (k x) as [tr' r]. simpl in *.
  by rewrite forallb_app, Hc, Hk.
Qed.

Lemma forallb_try_except {A} (P : event -> bool) (c h : M A)
    (catches : exn -> bool) :
  forallb P (trace c) = true ->
  forallb P (trace h) = true ->
  forallb P (trace (try_except c catches h)) = true.
Proof.
  intros Hc Hh. destruct c as [tr [e|x]]; simpl in *; [|done].
  destruct (catches e); [|done].
  destruct h as [tr' r]. simpl in *. by rewrite forallb_app, Hc, Hh.
Qed.

Lemma forallb_for_each {A} (P : event -> bool) (l : list A)
    (body : A -> M unit) :
  (forall x, forallb P (trace (body x)) = true) ->
  forallb P (trace (for_each l body)) = true.
Proof.
  intros Hbody. induction l as [|x l IH]; [done|].
  simpl. by apply forallb_bind.
Qed.

Lemma retrieve_events (w : World) (args : Namespace) (db : Database) :
  forallb is_mode_event (trace (retrieve w args db)) = true.
Proof.
  unfold retrieve.
  apply forallb_bind.
  { destruct (args_list args); [|done].
    apply forallb_bind; [done|]. intros all_entries.
    by apply forallb_for_each. }
  intros _. apply forallb_bind.
  { destruct (truthy_opt (args_entry args)); [done|].
    destruct (args_search args || args_fuzzy args); [|done].
    apply forallb_try_except; [|done].
    by apply forallb_bind. }
  intros entry_title. apply forallb_bind.
  { by destruct entry_title. }
  intros looked_up. apply forallb_bind; [done|].
  by intros [found|].
Qed.

Lemma open_database_events (w : World) (args : Namespace) (ev : event) :
  ev ∈ trace (open_database w args) ->
  ev = OpenDatabase (args_path args) (args_password args) (args_key_file args)
  \/ ev = LogError open_failure_message.
Proof.
  unfold open_database, call.
  destruct (EnpassDB w _ _ _) as [e|db]; simpl.
  - destruct (isinstance_EnpassDatabaseError e); simpl;
      rewrite list_elem_of_In; simpl; intuition.
  - rewrite list_elem_of_In; simpl; intuition.
Qed.

(** Where an event of a run comes from. *)
Lemma main_events (w : World) (cl : CommandLine) (ev : event) :
  ev ∈ trace (main w cl) ->
  (exists reason, ev = ParserError reason) \/
  exists args,
    result (get_arguments w cl) = inr args /\
    (ev ∈ trace (setup_logging w (args_log_level args) (args_logger_config args))
     \/ ev = OpenDatabase (args_path args) (args_password args)
                          (args_key_file args)
     \/ is_mode_event ev = true).
Proof.
  unfold main. intros [Hparse|(args & Hargs & Hrun)]%trace_bind.
  - left.
    destruct (result (get_arguments w cl)) as [e|args] eqn:Hres.
    + destruct (get_arguments_raises _ _ _ Hres) as [reason Hfail].
      rewrite Hfail in Hparse. exists reason.
      apply list_elem_of_In in Hparse. simpl in Hparse. intuition.
    + apply get_arguments_returns in Hres as [Hret _].
      rewrite Hret in Hparse. by apply list_elem_of_In in Hparse.
  - right. exists args. split; [done|].
    unfold run in Hrun.
    apply trace_bind in Hrun as [Hsetup|(_ & _ & Hrest)]; [by left|].
    right.
    apply trace_bind in Hrest as [Hopen|(db & _ & Hmode)].
    + apply open_database_events in Hopen as [->| ->]; [by left | by right].
    + right. pose proof (retrieve_events w args db) as Hall.
      rewrite forallb_forall in Hall. apply Hall. by apply list_elem_of_In.
Qed.

(** Whenever a run opens the database, it passes a path, a password and a
    key file that are strings: none of the three is ever [None]. *)
Theorem database_opened_with_strings (w : World) (cl : CommandLine)
    (path pass key_file : option string) :
  OpenDatabase path pass key_file ∈ trace (main w cl) ->
  is_Some path /\ is_Some pass /\ is_Some key_file.
Proof.
  intros [[reason Hev]|(args & Hargs & [Hin|[Hev|Hev]])]%main_events;
    try discriminate.
  - pose proof (setup_logging_events w (args_log_level args)
                  (args_logger_config args)) as Hall.
    rewrite forallb_forall in Hall.
    apply list_elem_of_In, Hall in Hin. discriminate.
  - injection Hev as -> -> ->.
    split; [|split].
    + apply (parsed_options_present w cl args DatabasePath Hargs).
    + apply (parsed_options_present w cl args DatabasePassword Hargs).
    + apply (parsed_options_present w cl args DatabaseKeyFile Hargs).
Qed.

Lemma database_opened_with_strings_witness :
  is_Some (Some "vault") /\ is_Some (Some "pw") /\ is_Some (Some "").
Proof.
  apply (database_opened_with_strings
           (Samples.world Samples.two_entries (inr "mail"))
           (Samples.command_line (Some "mail") false false false)).
  apply list_elem_of_In. vm_compute. right. by left.
Defined.

(** ** Logging *)

Lemma accepted_level_cases (level : string) :
  mem_string level log_level_choices = true ->
  level = "debug" \/ level = "info" \/ level = "warning" \/
  level = "error" \/ level = "critical".
Proof.
  unfold mem_string, log_level_choices. simpl.
  rewrite !orb_true_iff, !String.eqb_eq. intuition discriminate.
Qed.

(** Whenever a run installs [coloredlogs], the level it passes is the name of
    one of the five accepted levels in upper case; [INFO] when no level is
    given. *)
Theorem coloredlogs_level_upper_case (w : World) (cl : CommandLine)
    (level : string) :
  ColoredlogsInstall level ∈ trace (main w cl) ->
  level ∈ ["DEBUG"; "INFO"; "WARNING"; "ERROR"; "CRITICAL"] /\
  (cl_log_level cl = None -> level = "INFO").
Proof.
  intros [[reason Hev]|(args & Hargs & [Hin|[Hev|Hev]])]%main_events;
    try discriminate.
  pose proof (get_arguments_level _ _ _ Hargs) as Hlevel.
  apply get_arguments_returns in Hargs as (_ & _ & _ & _ & Hdefault & _).
  assert (Hupper : level = upper (args_log_level args)).
  { unfold setup_logging in Hin.
    destruct (truthy (args_logger_config args)).
    - exfalso. apply list_elem_of_In in Hin.
      destruct (open_read w _) as [e|contents]; simpl in Hin.
      { destruct (isinstance_ValueError e); simpl in Hin; intuition discriminate. }
      destruct (json_loads w contents) as [e|configuration]; simpl in Hin.
      { destruct (isinstance_ValueError e); simpl in Hin; intuition discriminate. }
      destruct (dictConfig w configuration) as [e|]; simpl in Hin;
        [|intuition discriminate].
      destruct (isinstance_ValueError e); simpl in Hin; intuition discriminate.
    - apply list_elem_of_In in Hin. simpl in Hin.
      destruct Hin as [Hin|[]]. by injection Hin. }
  rewrite Hupper, Hdefault. unfold level_accepted in Hlevel.
  destruct (cl_log_level cl) as [given_level|]; simpl.
  - split; [|done].
    destruct (accepted_level_cases _ Hlevel) as [->|[->|[->|[->| ->]]]];
      apply list_elem_of_In; vm_compute; tauto.
  - split; [|done]. apply list_elem_of_In; vm_compute; tauto.
Qed.

Lemma coloredlogs_level_upper_case_witness :
  "INFO" ∈ ["DEBUG"; "INFO"; "WARNING"; "ERROR"; "CRITICAL"] /\
  (cl_log_level (Samples.command_line (Some "mail") false false false) = None ->
   "INFO" = "INFO").
Proof.
  apply (coloredlogs_level_upper_case
           (Samples.world Samples.two_entries (inr "mail"))
           (Samples.command_line (Some "mail") false false false)).
  apply list_elem_of_In. vm_compute. by left.
Defined.

(** [setup_logging] has three outcomes only: it returns, having printed
    nothing; it prints the not-valid-json message for the file and exits with
    code 1; or an exception that is no [ValueError] leaves it, with nothing
    printed. *)
Theorem setup_logging_outcomes (w : World) (level config_file : string) :
  match result (setup_logging w level config_file) with
  | inr _ => stdout (trace (setup_logging w level config_file)) = []
  | inl e =>
      (e = SystemExit 1 /\
       stdout (trace (setup_logging w level config_file))
         = [not_valid_json_message config_file])
      \/ (isinstance_ValueError e = false /\
          stdout (trace (setup_logging w level config_file)) = [])
  end.
Proof.
  unfold setup_logging.
  destruct (truthy config_file); [|done].
  destruct (open_read w config_file) as [e|contents]; simpl.
  { destruct (isinstance_ValueError e) eqn:He; simpl; [by left | by right]. }
  destruct (json_loads w contents) as [e|configuration]; simpl.
  { destruct (isinstance_ValueError e) eqn:He; simpl; [by left | by right]. }
  destruct (dictConfig w configuration) as [e|]; simpl; [|done].
  destruct (isinstance_ValueError e) eqn:He; simpl; [by left | by right].
Qed.

(** A log-config file that holds well-formed JSON which [dictConfig] refuses
    with a [ValueError] is reported in the same words as a file that is not
    JSON at all, and the run exits with code 1 before the database is
    opened. *)
Theorem refused_configuration_reported_as_invalid_json (w : World)
    (cl : CommandLine) (args : Namespace) (config_file contents : string)
    (configuration : json) (e : exn) :
  result (get_arguments w cl) = inr args ->
  cl_log_config cl = Some config_file ->
  truthy config_file = true ->
  open_read w config_file = inr contents ->
  json_loads w contents = inr configuration ->
  dictConfig w configuration = Some e ->
  isinstance_ValueError e = true ->
  main w cl =
    ([OpenRead config_file; DictConfig configuration;
      Print (not_valid_json_message config_file)],
     inl (SystemExit 1)).
Proof.
  intros Hargs Hcl Hgiven Hread Hjson Hconfig He.
  rewrite (main_parsed _ _ _ Hargs).
  apply get_arguments_returns in Hargs as (_ & _ & _ & Hfile & _).
  rewrite Hcl in Hfile; simpl in Hfile.
  assert (Hsetup : setup_logging w (args_log_level args) (args_logger_config args)
                   = ([OpenRead config_file; DictConfig configuration;
                       Print (not_valid_json_message config_file)],
                      inl (SystemExit 1))).
  { unfold setup_logging. rewrite Hfile, Hgiven. unfold call at 1.
    rewrite Hread. cbn. rewrite Hjson. cbn. rewrite Hconfig. cbn.
    by rewrite He. }
  unfold run. rewrite Hsetup.
  by rewrite (bind_raises (_, inl (SystemExit 1)) _ (SystemExit 1) eq_refl).
Qed.

Lemma refused_configuration_reported_as_invalid_json_witness :
  main (MoreSamples.picky_world Samples.two_entries (inr "mail"))
       (MoreSamples.explicit (Some "logging.json") "vault" (Some "mail")
                             false false false)
  = ([OpenRead "logging.json"; DictConfig (JObject []);
      Print (not_valid_json_message "logging.json")],
     inl (SystemExit 1)).
Proof.
  apply (refused_configuration_reported_as_invalid_json _ _
           (MoreSamples.explicit_args "logging.json" "vault" (Some "mail")
                                      false false false)
           "logging.json" "{}" (JObject []) ValueError);
    reflexivity.
Defined.


(** ** Opening the database, other failures *)

(** An exception of [EnpassDB] that is no [EnpassDatabaseError] is not
    handled: the run ends with it uncaught, right after the attempt to open
    the database, and no error is logged. *)
Theorem other_open_error_uncaught (w : World) (cl : CommandLine)
    (args : Namespace) (e : exn) :
  result (get_arguments w cl) = inr args ->
  result (setup_logging w (args_log_level args) (args_logger_config args))
    = inr tt ->
  EnpassDB w (args_path args) (args_password args) (args_key_file args) = inl e ->
  isinstance_EnpassDatabaseError e = false ->
  result (main w cl) = inl e /\
  trace (main w cl) =
    trace (setup_logging w (args_log_level args) (args_logger_config args))
    ++ [OpenDatabase (args_path args) (args_password args) (args_key_file args)] /\
  error_log (trace (main w cl)) = [] /\
  stdout (trace (main w cl)) = [].
Proof.
  intros Hargs Hlog Hdb He.
  rewrite (main_parsed _ _ _ Hargs). unfold run.
  rewrite (bind_returns _ _ tt Hlog).
  assert (Hopen : open_database w args =
            ([OpenDatabase (args_path args) (args_password args)
                           (args_key_file args)], inl e)).
  { unfold open_database, call. rewrite Hdb. simpl. by rewrite He. }
  rewrite Hopen. rewrite (bind_raises (_, inl e) _ e eq_refl). simpl.
  destruct (logging_events_silent _ (setup_logging_returns _ _ _ Hlog))
    as (Hout & Herr & _).
  by rewrite stdout_app, error_log_app, Hout, Herr.
Qed.

Lemma other_open_error_uncaught_witness :
  result (main (MoreSamples.picky_world Samples.two_entries (inr "mail"))
               (MoreSamples.explicit None "elsewhere" (Some "mail")
                                     false false false))
  = inl OSError.
Proof.
  apply (other_open_error_uncaught _ _
           (MoreSamples.explicit_args "" "elsewhere" (Some "mail")
                                      false false false) OSError);
    reflexivity.
Defined.

(** ** Interactive search, continued *)

Lemma retrieve_typed (w : World) (args : Namespace) (db : Database)
    (typed : string) :
  args_list args = false ->
  truthy_opt (args_entry args) = false ->
  args_search args || args_fuzzy args = true ->
  prompt w "Title :"
         (if args_search args then EnpassCompleter db
          else FuzzyCompleter (EnpassCompleter db)) = inr typed ->
  retrieve w args db =
  (Prompt "Title :" (negb (args_search args))
   :: trace (lookup_and_print db typed),
   result (lookup_and_print db typed)).
Proof.
  intros Hlist Hentry Hmode Hprompt. unfold retrieve.
  rewrite Hlist, Hentry, Hmode. unfold call at 1. rewrite Hprompt.
  rewrite bind_ret. cbn [try_except bind ret]. cbn [app].
  cbn [read_local]. rewrite bind_ret.
  fold (lookup_and_print db typed).
  by destruct (lookup_and_print db typed).
Qed.

Lemma retrieve_prompt_raises (w : World) (args : Namespace) (db : Database)
    (e : exn) :
  args_list args = false ->
  truthy_opt (args_entry args) = false ->
  args_search args || args_fuzzy args = true ->
  prompt w "Title :"
         (if args_search args then EnpassCompleter db
          else FuzzyCompleter (EnpassCompleter db)) = inl e ->
  isinstance_KeyboardInterrupt e = false ->
  retrieve w args db = ([Prompt "Title :" (negb (args_search args))], inl e).
Proof.
  intros Hlist Hentry Hmode Hprompt He. unfold retrieve.
  rewrite Hlist, Hentry, Hmode. unfold call at 1. rewrite Hprompt.
  cbn. by rewrite He.
Qed.

(** In search and in fuzzy-search mode the text the user enters is looked up
    as it is, the empty text included: an entry found has its password
    printed, alone, and the run exits with code 0; otherwise the error naming
    the text is logged, nothing is printed, and the run exits with code 1. *)
Theorem typed_title_looked_up (w : World) (cl : CommandLine)
    (args : Namespace) (db : Database) (typed : string) :
  result (get_arguments w cl) = inr args ->
  cl_search cl = true \/ cl_fuzzy_search cl = true ->
  result (setup_logging w (args_log_level args) (args_logger_config args))
    = inr tt ->
  EnpassDB w (args_path args) (args_password args) (args_key_file args) = inr db ->
  prompt w "Title :"
         (if cl_search cl then EnpassCompleter db
          else FuzzyCompleter (EnpassCompleter db)) = inr typed ->
  GetEntry typed ∈ trace (main w cl) /\
  match get_entry db typed with
  | Some found =>
      result (main w cl) = inl (SystemExit 0) /\
      stdout (trace (main w cl)) = [password found] /\
      error_log (trace (main w cl)) = []
  | None =>
      result (main w cl) = inl (SystemExit 1) /\
      stdout (trace (main w cl)) = [] /\
      error_log (trace (main w cl)) = [not_found_message typed]
  end.
Proof.
  intros Hargs Hmode Hlog Hdb Hprompt.
  rewrite (main_parsed _ _ _ Hargs), (run_opened _ _ _ Hlog Hdb).
  apply get_arguments_returns in Hargs
    as (_ & Hone & _ & _ & _ & Hentry & Hlist & Hsearch & Hfuzzy & _).
  destruct (prompt_alone _ Hone Hmode) as [Hget Henum].
  rewrite (retrieve_typed w args db typed);
    [| by rewrite Hlist | by rewrite Hentry, Hget
     | rewrite Hsearch, Hfuzzy; destruct Hmode as [-> | ->];
       [done | apply orb_true_r]
     | by rewrite Hsearch].
  destruct (logging_events_silent _ (setup_logging_returns _ _ _ Hlog))
    as (Hout & Herr & _).
  unfold lookup_and_print, call. simpl.
  split.
  { apply elem_of_app. right. apply list_elem_of_In. simpl.
    destruct (get_entry db typed); simpl; tauto. }
  destruct (get_entry db typed) as [found|]; simpl;
    by rewrite stdout_app, error_log_app, Hout, Herr.
Qed.

Lemma typed_title_looked_up_witness :
  GetEntry "" ∈ trace (main (Samples.world Samples.with_untitled (inr ""))
                            (Samples.command_line None false true false)) /\
  match get_entry Samples.with_untitled "" with
  | Some found =>
      result (main (Samples.world Samples.with_untitled (inr ""))
                   (Samples.command_line None false true false))
        = inl (SystemExit 0) /\
      stdout (trace (main (Samples.world Samples.with_untitled (inr ""))
                          (Samples.command_line None false true false)))
        = [password found] /\
      error_log (trace (main (Samples.world Samples.with_untitled (inr ""))
                             (Samples.command_line None false true false)))
        = []
  | None =>
      result (main (Samples.world Samples.with_untitled (inr ""))
                   (Samples.command_line None false true false))
        = inl (SystemExit 1) /\
      stdout (trace (main (Samples.world Samples.with_untitled (inr ""))
                          (Samples.command_line None false true false)))
        = [] /\
      error_log (trace (main (Samples.world Samples.with_untitled (inr ""))
                             (Samples.command_line None false true false)))
        = [not_found_message ""]
  end.
Proof.
  apply (typed_title_looked_up _ _
           (Samples.args "" None false true false) Samples.with_untitled "");
    first [reflexivity | by left].
Defined.

(** An exception of the prompt other than [KeyboardInterrupt] (the end of
    input, for one) is not handled: the run ends with it uncaught, with
    nothing looked up, printed or logged. *)
Theorem other_prompt_error_uncaught (w : World) (cl : CommandLine)
    (args : Namespace) (db : Database) (e : exn) :
  result (get_arguments w cl) = inr args ->
  cl_search cl = true \/ cl_fuzzy_search cl = true ->
  result (setup_logging w (args_log_level args) (args_logger_config args))
    = inr tt ->
  EnpassDB w (args_path args) (args_password args) (args_key_file args) = inr db ->
  prompt w "Title :"
         (if cl_search cl then EnpassCompleter db
          else FuzzyCompleter (EnpassCompleter db)) = inl e ->
  isinstance_KeyboardInterrupt e = false ->
  result (main w cl) = inl e /\
  stdout (trace (main w cl)) = [] /\
  error_log (trace (main w cl)) = [] /\
  trace (main w cl) =
    trace (setup_logging w (args_log_level args) (args_logger_config args))
    ++ [OpenDatabase (args_path args) (args_password args) (args_key_file args);
        Prompt "Title :" (negb (cl_search cl))].
Proof.
  intros Hargs Hmode Hlog Hdb Hprompt He.
  rewrite (main_parsed _ _ _ Hargs), (run_opened _ _ _ Hlog Hdb).
  apply get_arguments_returns in Hargs
    as (_ & Hone & _ & _ & _ & Hentry & Hlist & Hsearch & Hfuzzy & _).
  destruct (prompt_alone _ Hone Hmode) as [Hget Henum].
  rewrite (retrieve_prompt_raises w args db e);
    [| by rewrite Hlist | by rewrite Hentry, Hget
     | rewrite Hsearch, Hfuzzy; destruct Hmode as [-> | ->];
       [done | apply orb_true_r]
     | by rewrite Hsearch | done].
  destruct (logging_events_silent _ (setup_logging_returns _ _ _ Hlog))
    as (Hout & Herr & _).
  simpl. by rewrite stdout_app, error_log_app, Hout, Herr, Hsearch.
Qed.

Lemma other_prompt_error_uncaught_witness :
  result (main (Samples.world Samples.two_entries (inl EOFError))
               (Samples.command_line None false false true))
  = inl EOFError.
Proof.
  apply (other_prompt_error_uncaught _ _
           (Samples.args "" None false false true) Samples.two_entries EOFError);
    first [reflexivity | by right].
Defined.

(** ** Enumerate, continued *)

(** In enumerate mode the run reads the entries and prints the line of the
    first one, if there is one; it never prompts and never looks an entry up.
    It exits with code 0 when the database holds an entry and ends with an
    uncaught [UnboundLocalError] when it holds none. *)
Theorem enumerate_run (w : World) (cl : CommandLine) (args : Namespace)
    (db : Database) :
  result (get_arguments w cl) = inr args ->
  cl_enumerate cl = true ->
  result (setup_logging w (args_log_level args) (args_logger_config args))
    = inr tt ->
  EnpassDB w (args_path args) (args_password args) (args_key_file args) = inr db ->
  trace (main w cl) =
    trace (setup_logging w (args_log_level args) (args_logger_config args))
    ++ [OpenDatabase (args_path args) (args_password args) (args_key_file args);
        ReadEntries]
    ++ map Print (take 1 (map entry_line (entries db))) /\
  result (main w cl) =
    match entries db with
    | [] => inl (UnboundLocalError "entry_title")
    | _ :: _ => inl (SystemExit 0)
    end.
Proof.
  intros Hargs Henum Hlog Hdb.
  rewrite (main_parsed _ _ _ Hargs), (run_opened _ _ _ Hlog Hdb).
  apply get_arguments_returns in Hargs
    as (_ & Hone & _ & _ & _ & Hentry & Hlist & Hsearch & Hfuzzy & _).
  destruct (enumerate_alone _ Hone Henum) as (H1 & H2 & H3).
  destruct (entries db) as [|first others] eqn:Hentries.
  - rewrite (retrieve_enumerate_empty w args db); try congruence.
    + done.
    + by rewrite Hentry, H1.
  - rewrite (retrieve_enumerate_first w args db first others);
      [done | congruence | done].
Qed.

Lemma enumerate_run_witness :
  result (main (Samples.world Samples.two_entries (inr "mail"))
               (Samples.command_line None true false false))
  = match entries Samples.two_entries with
    | [] => inl (UnboundLocalError "entry_title")
    | _ :: _ => inl (SystemExit 0)
    end.
Proof.
  apply (enumerate_run _ _ (Samples.args "" None true false false)
                       Samples.two_entries);
    reflexivity.
Defined.

(** ** Direct get: witnesses *)

Lemma get_missing_title_exits_1_witness :
  result (main (Samples.world Samples.two_entries (inr "mail"))
               (Samples.command_line (Some "nope") false false false))
    = inl (SystemExit 1) /\
  error_log (trace (main (Samples.world Samples.two_entries (inr "mail"))
                         (Samples.command_line (Some "nope") false false false)))
    = [not_found_message "nope"] /\
  stdout (trace (main (Samples.world Samples.two_entries (inr "mail"))
                      (Samples.command_line (Some "nope") false false false)))
    = [].
Proof.
  apply (get_missing_title_exits_1 _ _
           (Samples.args "" (Some "nope") false false false)
           Samples.two_entries "nope");
    reflexivity.
Defined.

Lemma get_found_title_prints_password_witness :
  result (main (Samples.world Samples.two_entries (inr "mail"))
               (Samples.command_line (Some "mail") false false false))
    = inl (SystemExit 0) /\
  stdout (trace (main (Samples.world Samples.two_entries (inr "mail"))
                      (Samples.command_line (Some "mail") false false false)))
    = [password Samples.mail] /\
  error_log (trace (main (Samples.world Samples.two_entries (inr "mail"))
                         (Samples.command_line (Some "mail") false false false)))
    = [].
Proof.
  apply (get_found_title_prints_password _ _
           (Samples.args "" (Some "mail") false false false)
           Samples.two_entries "mail" Samples.mail);
    reflexivity.
Defined.

(** ** The completer *)


(** ** [DefaultVariable] in general *)




(** ** The key file *)


